(** * Master Controller for the Automated Wood Sorting System (v4)

    Shallow embedding of the Arduino sketch [src/unnamed/part_001]:
    the stepper handler, the debounced IR sensor with length measurement,
    the serial command dispatcher and the servo gates.

    Modelling choices:
    - [unsigned long] values are integers taken modulo 2^32; every
      [now - earlier] of the sketch is [sub32 now earlier].
    - Each routine reads the clock once: [millis()] / [micros()] become a
      parameter of the routine (the sketch reads them a few microseconds
      apart inside one call).
    - The global variables of the sketch form one record [State]; the
      routines run in a small state monad that also records the side
      effects (serial output, pin writes, servo writes, delays) in order. *)

From Stdlib Require Import ZArith String Ascii List Bool Lia.
Import ListNotations.
Open Scope Z_scope.

(* ------------------------------------------------------------------ *)
(** ** Constants and machine arithmetic *)

Definition ULONG_MOD : Z := 2 ^ 32.

(** [a - b] on two [unsigned long] values. *)
Definition sub32 (a b : Z) : Z := (a - b) mod ULONG_MOD.

Definition LOW : Z := 0.
Definition HIGH : Z := 1.

Definition IR_SENSOR_PIN : Z := 11.
Definition SERVO_1_PIN : Z := 2.
Definition SERVO_2_PIN : Z := 3.
Definition SERVO_3_PIN : Z := 4.
Definition STEPPER_ENA_PIN : Z := 8.
Definition STEPPER_DIR_PIN : Z := 9.
Definition STEPPER_STEP_PIN : Z := 10.

Definition stepInterval : Z := 500.      (* microseconds *)
Definition runOutDuration : Z := 7000.   (* milliseconds *)
Definition debounceDelay : Z := 50.      (* milliseconds *)
Definition gateHoldTime : Z := 1000.     (* delay(1000) in activateServoGate *)

(** [digitalWrite(pin, b)] with a [bool] argument writes HIGH for true. *)
Definition level_of_bool (b : bool) : Z := if b then HIGH else LOW.

(** [String(unsigned long)]: decimal digits, no leading zeros.  An
    [unsigned long] has at most 10 digits, the fuel is 11. *)
Fixpoint dec_digits (fuel : nat) (n : Z) (acc : string) : string :=
  match fuel with
  | O => acc
  | S f =>
      let acc' := String (ascii_of_nat (48 + Z.to_nat (n mod 10))) acc in
      if n <? 10 then acc' else dec_digits f (n / 10) acc'
  end.

Definition String_of_ulong (n : Z) : string := dec_digits 11 n "".
Arguments String_of_ulong : simpl never.

(* ------------------------------------------------------------------ *)
(** ** Data model *)

Inductive Mode := IDLE | CONTINUOUS | TRIGGER.

Definition Mode_eqb (a b : Mode) : bool :=
  match a, b with
  | IDLE, IDLE | CONTINUOUS, CONTINUOUS | TRIGGER, TRIGGER => true
  | _, _ => false
  end.

Inductive Servo := servo1 | servo2 | servo3.

(** Observable side effects, in the order the sketch performs them. *)
Inductive Event :=
| SerialPrint (s : string)
| SerialPrintln (s : string)
| DigitalWrite (pin v : Z)
| ServoWrite (sv : Servo) (angle : Z)
| Delay (ms : Z).

(** The sketch's global variables (plus the [static] [lastStatusTime] of
    [handleStepper] and the last angle written to each servo). *)
Record State := mkState {
  currentMode : Mode;
  lastStepTime : Z;
  stepState : bool;
  motorActiveForTrigger : bool;
  inRunOutPhase : bool;
  runOutStartTime : Z;
  lastStableIrState : Z;
  lastFlickerIrState : Z;
  lastStateChangeTime : Z;
  beamBrokenStartTime : Z;
  beamIsBroken : bool;
  lastStatusTime : Z;
  servo1Angle : Z;
  servo2Angle : Z;
  servo3Angle : Z
}.

(** State right after [setup()]. *)
Definition initState : State :=
  {| currentMode := IDLE; lastStepTime := 0; stepState := false;
     motorActiveForTrigger := false; inRunOutPhase := false;
     runOutStartTime := 0; lastStableIrState := HIGH;
     lastFlickerIrState := HIGH; lastStateChangeTime := 0;
     beamBrokenStartTime := 0; beamIsBroken := false; lastStatusTime := 0;
     servo1Angle := 0; servo2Angle := 0; servo3Angle := 0 |}.

(** Assignments to single globals. *)
Definition set_currentMode (v : Mode) (s : State) : State :=
  let '(mkState _ b c d e f g h i j k l m n o) := s in
  mkState v b c d e f g h i j k l m n o.
Definition set_lastStepTime (v : Z) (s : State) : State :=
  let '(mkState a _ c d e f g h i j k l m n o) := s in
  mkState a v c d e f g h i j k l m n o.
Definition set_stepState (v : bool) (s : State) : State :=
  let '(mkState a b _ d e f g h i j k l m n o) := s in
  mkState a b v d e f g h i j k l m n o.
Definition set_motorActiveForTrigger (v : bool) (s : State) : State :=
  let '(mkState a b c _ e f g h i j k l m n o) := s in
  mkState a b c v e f g h i j k l m n o.
Definition set_inRunOutPhase (v : bool) (s : State) : State :=
  let '(mkState a b c d _ f g h i j k l m n o) := s in
  mkState a b c d v f g h i j k l m n o.
Definition set_runOutStartTime (v : Z) (s : State) : State :=
  let '(mkState a b c d e _ g h i j k l m n o) := s in
  mkState a b c d e v g h i j k l m n o.
Definition set_lastStableIrState (v : Z) (s : State) : State :=
  let '(mkState a b c d e f _ h i j k l m n o) := s in
  mkState a b c d e f v h i j k l m n o.
Definition set_lastFlickerIrState (v : Z) (s : State) : State :=
  let '(mkState a b c d e f g _ i j k l m n o) := s in
  mkState a b c d e f g v i j k l m n o.
Definition set_lastStateChangeTime (v : Z) (s : State) : State :=
  let '(mkState a b c d e f g h _ j k l m n o) := s in
  mkState a b c d e f g h v j k l m n o.
Definition set_beamBrokenStartTime (v : Z) (s : State) : State :=
  let '(mkState a b c d e f g h i _ k l m n o) := s in
  mkState a b c d e f g h i v k l m n o.
Definition set_beamIsBroken (v : bool) (s : State) : State :=
  let '(mkState a b c d e f g h i j _ l m n o) := s in
  mkState a b c d e f g h i j v l m n o.
Definition set_lastStatusTime (v : Z) (s : State) : State :=
  let '(mkState a b c d e f g h i j k _ m n o) := s in
  mkState a b c d e f g h i j k v m n o.
Definition set_servoAngle (sv : Servo) (v : Z) (s : State) : State :=
  let '(mkState a b c d e f g h i j k l m n o) := s in
  match sv with
  | servo1 => mkState a b c d e f g h i j k l v n o
  | servo2 => mkState a b c d e f g h i j k l m v o
  | servo3 => mkState a b c d e f g h i j k l m n v
  end.

(* ------------------------------------------------------------------ *)
(** ** The controller monad: state passing with an effect log *)

Definition M (A : Type) : Type := State -> A * State * list Event.

Definition ret {A} (a : A) : M A := fun s => (a, s, []).

Definition bind {A B} (m : M A) (k : A -> M B) : M B :=
  fun s =>
    let '(a, s1, l1) := m s in
    let '(b, s2, l2) := k a s1 in
    (b, s2, l1 ++ l2).

Notation "x <- m ;; k" := (bind m (fun x => k))
  (at level 61, m at next level, right associativity).
Notation "m ;; k" := (bind m (fun _ => k)) (at level 61, right associativity).

Definition get : M State := fun s => (s, s, []).
Definition modify (f : State -> State) : M unit := fun s => (tt, f s, []).
Definition emit (e : Event) : M unit := fun s => (tt, s, [e]).

(** Final state and effect log of running [m] from [s]. *)
Definition exec {A} (m : M A) (s : State) : State := snd (fst (m s)).
Definition effects {A} (m : M A) (s : State) : list Event := snd (m s).

(* ------------------------------------------------------------------ *)
(** ** handleStepper *)

(** Lines 82-84: [printStatus = (millis() - lastStatusTime > 1000)]. *)
Definition statusDue (ms : Z) : M bool :=
  s <- get ;;
  let printStatus := 1000 <? sub32 ms (lastStatusTime s) in
  (if printStatus then modify (set_lastStatusTime ms) else ret tt) ;;
  ret printStatus.

(** Lines 80 and 86-101: the mode evaluation computing [shouldBeActive]. *)
Definition evalShouldBeActive (ms : Z) : M bool :=
  s <- get ;;
  match currentMode s with
  | CONTINUOUS => ret true
  | TRIGGER =>
      if inRunOutPhase s then
        if sub32 ms (runOutStartTime s) <? runOutDuration then ret true
        else (modify (set_inRunOutPhase false) ;;
              modify (set_motorActiveForTrigger false) ;;
              ret false)
      else ret (motorActiveForTrigger s)
  | IDLE => ret false
  end.

(** Lines 105-112: the non-blocking step pulse. *)
Definition stepPulse (shouldBeActive : bool) (us : Z) : M unit :=
  if shouldBeActive then
    s <- get ;;
    if stepInterval <=? sub32 us (lastStepTime s) then
      (modify (set_lastStepTime us) ;;
       modify (set_stepState (negb (stepState s))) ;;
       emit (DigitalWrite STEPPER_STEP_PIN (level_of_bool (negb (stepState s)))))
    else ret tt
  else ret tt.

Definition modeName (m : Mode) : string :=
  match m with
  | IDLE => "IDLE"
  | CONTINUOUS => "CONTINUOUS"
  | TRIGGER => "TRIGGER"
  end.

(** Lines 114-121: the periodic status line. *)
Definition printStatusLine (shouldBeActive : bool) : M unit :=
  s <- get ;;
  emit (SerialPrint "Mode: ") ;;
  emit (SerialPrint (modeName (currentMode s))) ;;
  emit (SerialPrint " | Motor Active: ") ;;
  emit (SerialPrintln (if shouldBeActive then "YES" else "NO")).

Definition handleStepper (ms us : Z) : M unit :=
  printStatus <- statusDue ms ;;
  shouldBeActive <- evalShouldBeActive ms ;;
  emit (DigitalWrite STEPPER_ENA_PIN (if shouldBeActive then LOW else HIGH)) ;;
  stepPulse shouldBeActive us ;;
  (if printStatus then printStatusLine shouldBeActive else ret tt).

(* ------------------------------------------------------------------ *)
(** ** checkIrSensor *)

(** Lines 138-146: beam broken event. *)
Definition beamBrokenEvent (ms : Z) : M unit :=
  emit (SerialPrintln "B") ;;
  modify (set_beamBrokenStartTime ms) ;;
  modify (set_beamIsBroken true) ;;
  s <- get ;;
  if Mode_eqb (currentMode s) TRIGGER then
    (modify (set_motorActiveForTrigger true) ;;
     modify (set_inRunOutPhase false))
  else ret tt.

(** Lines 147-160: beam cleared event. *)
Definition beamClearedEvent (ms : Z) : M unit :=
  s <- get ;;
  (if beamIsBroken s then
     (let duration := sub32 ms (beamBrokenStartTime s) in
      emit (SerialPrintln ("L:" ++ String_of_ulong duration)%string) ;;
      modify (set_beamIsBroken false))
   else ret tt) ;;
  s <- get ;;
  if Mode_eqb (currentMode s) TRIGGER && motorActiveForTrigger s then
    (modify (set_inRunOutPhase true) ;;
     modify (set_runOutStartTime ms))
  else ret tt.

Definition checkIrSensor (currentIrState ms : Z) : M unit :=
  s <- get ;;
  (if negb (currentIrState =? lastFlickerIrState s)
   then modify (set_lastStateChangeTime ms) else ret tt) ;;
  modify (set_lastFlickerIrState currentIrState) ;;
  s <- get ;;
  if debounceDelay <? sub32 ms (lastStateChangeTime s) then
    if negb (currentIrState =? lastStableIrState s) then
      ((if currentIrState =? LOW then beamBrokenEvent ms
        else beamClearedEvent ms) ;;
       modify (set_lastStableIrState currentIrState))
    else ret tt
  else ret tt.

(* ------------------------------------------------------------------ *)
(** ** checkSerialCommands and activateServoGate *)

Definition servoWrite (sv : Servo) (angle : Z) : M unit :=
  modify (set_servoAngle sv angle) ;; emit (ServoWrite sv angle).

Definition activateServoGate (sv : Servo) (angle : Z) : M unit :=
  servoWrite sv angle ;;
  emit (Delay gateHoldTime) ;;
  servoWrite sv 0.

(** [Serial.available() > 0] is [Some command]. *)
Definition checkSerialCommands (input : option ascii) : M unit :=
  match input with
  | None => ret tt
  | Some command =>
      if Ascii.eqb command "1" then activateServoGate servo1 45
      else if Ascii.eqb command "2" then activateServoGate servo2 90
      else if Ascii.eqb command "3" then activateServoGate servo3 135
      else if Ascii.eqb command "C" then
        (modify (set_currentMode CONTINUOUS) ;;
         emit (SerialPrintln "Mode: CONTINUOUS"))
      else if Ascii.eqb command "T" then
        (modify (set_currentMode TRIGGER) ;;
         modify (set_motorActiveForTrigger false) ;;
         modify (set_inRunOutPhase false) ;;
         emit (SerialPrintln "Mode: TRIGGER"))
      else if Ascii.eqb command "X" then
        (modify (set_currentMode IDLE) ;;
         modify (set_motorActiveForTrigger false) ;;
         modify (set_inRunOutPhase false) ;;
         emit (SerialPrintln "Mode: IDLE (Stopped)"))
      else ret tt
  end.

(* ------------------------------------------------------------------ *)
(** ** loop *)

(** What the environment supplies to one iteration of [loop()]. *)
Record LoopInput := mkInput {
  stepperMillis : Z;           (* millis() inside handleStepper *)
  stepperMicros : Z;           (* micros() inside handleStepper *)
  irReading : Z;               (* digitalRead(IR_SENSOR_PIN) *)
  irMillis : Z;                (* millis() inside checkIrSensor *)
  serialByte : option ascii    (* Serial.read() when available *)
}.

Definition loop (inp : LoopInput) : M unit :=
  handleStepper (stepperMillis inp) (stepperMicros inp) ;;
  checkIrSensor (irReading inp) (irMillis inp) ;;
  checkSerialCommands (serialByte inp).

(** Iterations of [loop()], each with its input and its effects. *)
Fixpoint run_trace (s : State) (inps : list LoopInput)
  : State * list (LoopInput * list Event) :=
  match inps with
  | [] => (s, [])
  | inp :: rest =>
      let '(_, s1, evs) := loop inp s in
      let '(s2, tr) := run_trace s1 rest in
      (s2, (inp, evs) :: tr)
  end.

(** The newline-terminated lines printed on the serial port. *)
Fixpoint lines_from (cur : string) (evs : list Event) : list string :=
  match evs with
  | [] => []
  | SerialPrint t :: r => lines_from (cur ++ t)%string r
  | SerialPrintln t :: r => (cur ++ t)%string :: lines_from "" r
  | _ :: r => lines_from cur r
  end.

Definition serial_lines (evs : list Event) : list string := lines_from "" evs.

Definition all_effects (tr : list (LoopInput * list Event)) : list Event :=
  concat (map snd tr).

(** A line starting with "L:". *)
Definition is_length_line (l : string) : bool :=
  match l with
  | String a (String b _) => Ascii.eqb a "L" && Ascii.eqb b ":"
  | _ => false
  end.

(** The motor-should-run signal as the spec states it (spec 4.4), read
    on a state: [true] in CONTINUOUS, [motorActive || runOutActive] in
    TRIGGER, [false] in IDLE. *)
Definition spec_shouldRun (s : State) : bool :=
  match currentMode s with
  | CONTINUOUS => true
  | TRIGGER => motorActiveForTrigger s || inRunOutPhase s
  | IDLE => false
  end.

(** A scripted session: 'T', the beam interrupted from 100 ms to 300 ms,
    then 'C', then a quiet iteration at 9000 ms. *)
Definition session : list LoopInput :=
  [ mkInput 0 0 HIGH 0 (Some "T"%char);
    mkInput 100 100000 LOW 100 None;
    mkInput 200 200000 LOW 200 None;
    mkInput 300 300000 HIGH 300 None;
    mkInput 400 400000 HIGH 400 None;
    mkInput 500 500000 HIGH 500 (Some "C"%char);
    mkInput 9000 900000 HIGH 9000 None ].

Definition state_after (n : nat) : State :=
  fst (run_trace initState (firstn n session)).

(** Number of stable-level changes over successive [checkIrSensor] calls
    that all read the same level [raw], at times [ts]. *)
Fixpoint sense_commits (raw : Z) (s : State) (ts : list Z) : nat :=
  match ts with
  | [] => O
  | t :: rest =>
      let s' := exec (checkIrSensor raw t) s in
      ((if Z.eqb (lastStableIrState s') (lastStableIrState s) then O else 1) +
       sense_commits raw s' rest)%nat
  end.

(** The text still waiting for its newline after the effects [evs]. *)
Fixpoint pending_text (cur : string) (evs : list Event) : string :=
  match evs with
  | [] => cur
  | SerialPrint t :: r => pending_text (cur ++ t)%string r
  | SerialPrintln _ :: r => pending_text "" r
  | _ :: r => pending_text cur r
  end.

(** The length line for a beam broken at [t0] and cleared at [t]. *)
Definition length_line (t0 t : Z) : string :=
  ("L:" ++ String_of_ulong (sub32 t t0))%string.
Arguments length_line : simpl never.

(** Reading the host-bound lines of one iteration whose sensor ran at
    [t]: "B" records [t]; a length line must be [length_line t0 t] for
    the recorded [t0], which it consumes. *)
Fixpoint scan_lengths (pending : option Z) (t : Z) (ls : list string)
  : option (option Z) :=
  match ls with
  | [] => Some pending
  | l :: r =>
      if String.eqb l "B" then scan_lengths (Some t) t r
      else if is_length_line l then
        match pending with
        | Some t0 =>
            if String.eqb l (length_line t0 t) then scan_lengths None t r
            else None
        | None => None
        end
      else scan_lengths pending t r
  end.

Fixpoint lengths_ok (pending : option Z) (tr : list (LoopInput * list Event))
  : bool :=
  match tr with
  | [] => true
  | (inp, evs) :: rest =>
      match scan_lengths pending (irMillis inp) (serial_lines evs) with
      | Some p => lengths_ok p rest
      | None => false
      end
  end.

(** Every length line comes after a "B" line with no length line in
    between; [pending] says whether a "B" is still unmatched. *)
Fixpoint scan_B_L (pending : bool) (ls : list string) : option bool :=
  match ls with
  | [] => Some pending
  | l :: r =>
      if String.eqb l "B" then scan_B_L true r
      else if is_length_line l then
        (if pending then scan_B_L false r else None)
      else scan_B_L pending r
  end.

Definition B_before_L (ls : list string) : bool :=
  match scan_B_L false ls with Some _ => true | None => false end.

(* ================================================================== *)
(** * Proofs *)

(** Run the monadic code symbolically. *)
Ltac mrun := cbv beta iota zeta delta [handleStepper statusDue evalShouldBeActive stepPulse
    printStatusLine checkIrSensor beamBrokenEvent beamClearedEvent
    checkSerialCommands activateServoGate servoWrite loop
    bind get modify emit ret exec effects
    set_currentMode set_lastStepTime set_stepState set_motorActiveForTrigger
    set_inRunOutPhase set_runOutStartTime set_lastStableIrState
    set_lastFlickerIrState set_lastStateChangeTime set_beamBrokenStartTime
    set_beamIsBroken set_lastStatusTime set_servoAngle
    currentMode lastStepTime stepState motorActiveForTrigger inRunOutPhase
    runOutStartTime lastStableIrState lastFlickerIrState lastStateChangeTime
    beamBrokenStartTime beamIsBroken lastStatusTime servo1Angle servo2Angle
    servo3Angle stepperMillis stepperMicros irReading irMillis serialByte
    negb andb Mode_eqb fst snd app].

Example session_lines :
  map (fun p => serial_lines (snd p)) (snd (run_trace initState session)) =
  [["Mode: TRIGGER"%string]; []; ["B"%string]; []; ["L:200"%string];
   ["Mode: CONTINUOUS"%string];
   ["Mode: CONTINUOUS | Motor Active: YES"%string]].
Proof. reflexivity. Qed.

Example String_of_ulong_samples :
  String_of_ulong 0 = "0"%string /\ String_of_ulong 200 = "200"%string /\
  String_of_ulong 4294967295 = "4294967295"%string.
Proof. repeat split; reflexivity. Qed.

(* ------------------------------------------------------------------ *)
(** ** Command dispatch *)

(** C9: every byte other than '1', '2', '3', 'C', 'T' and 'X' is
    dropped: no effect at all and the whole state is unchanged. *)
Theorem checkSerialCommands_ignores_other_bytes (c : ascii) (s : State) :
  ~ In c ["1"; "2"; "3"; "C"; "T"; "X"]%char ->
  checkSerialCommands (Some c) s = (tt, s, []).
Proof.
  intros Hc. unfold checkSerialCommands.
  repeat match goal with
  | |- context [Ascii.eqb c ?k] =>
      destruct (Ascii.eqb_spec c k) as [->|_];
      [exfalso; apply Hc; simpl; tauto|]
  end.
  reflexivity.
Qed.

Lemma checkSerialCommands_ignores_other_bytes_witness :
  ~ In "Z"%char ["1"; "2"; "3"; "C"; "T"; "X"]%char /\
  checkSerialCommands (Some "Z"%char) initState = (tt, initState, []).
Proof.
  assert (H : ~ In "Z"%char ["1"; "2"; "3"; "C"; "T"; "X"]%char)
    by (simpl; intuition discriminate).
  split; [exact H|].
  apply (checkSerialCommands_ignores_other_bytes "Z"%char initState H).
Defined.

(** C8: in every mode, '1', '2' and '3' move gate 1, 2 or 3 to 45, 90 or
    135 degrees, hold 1000 ms and return it to 0; nothing else changes. *)
Theorem gate_commands_move_hold_return (s : State) :
  checkSerialCommands (Some "1"%char) s =
    (tt, set_servoAngle servo1 0 s,
     [ServoWrite servo1 45; Delay 1000; ServoWrite servo1 0]) /\
  checkSerialCommands (Some "2"%char) s =
    (tt, set_servoAngle servo2 0 s,
     [ServoWrite servo2 90; Delay 1000; ServoWrite servo2 0]) /\
  checkSerialCommands (Some "3"%char) s =
    (tt, set_servoAngle servo3 0 s,
     [ServoWrite servo3 135; Delay 1000; ServoWrite servo3 0]).
Proof. destruct s; repeat split; reflexivity. Qed.

(** C5 (code diverges): the 'C' branch does not reset the trigger
    sub-state, unlike the 'T' and 'X' branches.  In the scripted session,
    after the beam cleared in TRIGGER mode the run-out is active, and
    dispatching 'C' keeps it active. *)
Lemma mode_C_keeps_trigger_substate_cex :
  ~ (forall s : State, currentMode s <> CONTINUOUS ->
       inRunOutPhase (exec (checkSerialCommands (Some "C"%char)) s) = false).
Proof.
  intros H. specialize (H (state_after 5)).
  assert (Hm : currentMode (state_after 5) <> CONTINUOUS)
    by (vm_compute; discriminate).
  specialize (H Hm). vm_compute in H. discriminate.
Qed.

(** C5 (what the code does): 'X' and 'T' set the mode and clear
    [motorActiveForTrigger] and [inRunOutPhase] ("Reset trigger state");
    the 'C' branch sets CONTINUOUS but omits that reset, so both flags keep
    their values.  In CONTINUOUS the should-run evaluation is [true]
    without reading or changing them.  Each emits only its confirmation
    line. *)
Theorem mode_commands_dispatch (s : State) :
  checkSerialCommands (Some "X"%char) s =
    (tt, set_inRunOutPhase false (set_motorActiveForTrigger false
           (set_currentMode IDLE s)),
     [SerialPrintln "Mode: IDLE (Stopped)"]) /\
  checkSerialCommands (Some "T"%char) s =
    (tt, set_inRunOutPhase false (set_motorActiveForTrigger false
           (set_currentMode TRIGGER s)),
     [SerialPrintln "Mode: TRIGGER"]) /\
  checkSerialCommands (Some "C"%char) s =
    (tt, set_currentMode CONTINUOUS s, [SerialPrintln "Mode: CONTINUOUS"]) /\
  (forall ms, evalShouldBeActive ms (set_currentMode CONTINUOUS s) =
              (true, set_currentMode CONTINUOUS s, [])).
Proof. destruct s; repeat split; reflexivity. Qed.

(* ------------------------------------------------------------------ *)
(** ** Stepper handler *)

Ltac split_ifs :=
  repeat (cbn; match goal with
  | |- context [if ?c then _ else _] => destruct c eqn:?
  | |- context [match ?m with IDLE => _ | CONTINUOUS => _ | TRIGGER => _ end] =>
      destruct m eqn:?
  end); cbn.

(** C3: the signal computed by the mode evaluation is [true] in
    CONTINUOUS, [motorActiveForTrigger || inRunOutPhase] in TRIGGER and
    [false] in IDLE, read on the flags as they stand when the signal is
    computed (after an expired run-out has been ended); the evaluation
    prints nothing and keeps the mode; the handler's first effect drives
    the (active-low) enable line with that signal. *)
Theorem shouldBeActive_follows_mode (ms us : Z) (s : State) :
  let '(b, s1, evs) := evalShouldBeActive ms s in
  evs = [] /\ currentMode s1 = currentMode s /\ b = spec_shouldRun s1 /\
  hd_error (effects (handleStepper ms us) s) =
    Some (DigitalWrite STEPPER_ENA_PIN (if b then LOW else HIGH)).
Proof.
  destruct s as [m lst ss ma ro rs st fl lc bs bb lt a1 a2 a3].
  unfold spec_shouldRun; mrun.
  destruct m, ro, ma; split_ifs; repeat split; congruence.
Qed.

Lemma exec_bind {A B} (m : M A) (k : A -> M B) (s : State) :
  exec (bind m k) s = exec (k (fst (fst (m s)))) (exec m s).
Proof.
  unfold exec, bind. destruct (m s) as [[a s1] l1]. cbn.
  destruct (k a s1) as [[b s2] l2]. reflexivity.
Qed.

Lemma effects_bind {A B} (m : M A) (k : A -> M B) (s : State) :
  effects (bind m k) s =
  effects m s ++ effects (k (fst (fst (m s)))) (exec m s).
Proof.
  unfold effects, exec, bind. destruct (m s) as [[a s1] l1]. cbn.
  destruct (k a s1) as [[b s2] l2]. reflexivity.
Qed.

Lemma exec_loop (inp : LoopInput) (s : State) :
  exec (loop inp) s =
  exec (checkSerialCommands (serialByte inp))
    (exec (checkIrSensor (irReading inp) (irMillis inp))
       (exec (handleStepper (stepperMillis inp) (stepperMicros inp)) s)).
Proof. unfold loop. rewrite !exec_bind. reflexivity. Qed.

Lemma effects_loop (inp : LoopInput) (s : State) :
  let s1 := exec (handleStepper (stepperMillis inp) (stepperMicros inp)) s in
  let s2 := exec (checkIrSensor (irReading inp) (irMillis inp)) s1 in
  effects (loop inp) s =
  effects (handleStepper (stepperMillis inp) (stepperMicros inp)) s ++
  effects (checkIrSensor (irReading inp) (irMillis inp)) s1 ++
  effects (checkSerialCommands (serialByte inp)) s2.
Proof. unfold loop. rewrite !effects_bind. reflexivity. Qed.

(** Only [handleStepper] touches the pulse state. *)
Lemma checkIrSensor_pulse_frame (raw ms : Z) (s : State) :
  lastStepTime (exec (checkIrSensor raw ms) s) = lastStepTime s /\
  stepState (exec (checkIrSensor raw ms) s) = stepState s.
Proof. destruct s; mrun; split_ifs; auto. Qed.

Lemma checkSerialCommands_pulse_frame (c : option ascii) (s : State) :
  lastStepTime (exec (checkSerialCommands c) s) = lastStepTime s /\
  stepState (exec (checkSerialCommands c) s) = stepState s.
Proof. destruct s, c; mrun; split_ifs; auto. Qed.

Lemma handleStepper_pulse (ms us : Z) (s : State) :
  let s' := exec (handleStepper ms us) s in
  (stepState s' <> stepState s ->
     stepInterval <= sub32 us (lastStepTime s) /\ lastStepTime s' = us) /\
  (stepState s' = stepState s -> lastStepTime s' = lastStepTime s).
Proof.
  destruct s as [m lst ss ma ro rs st fl lc bs bb lt a1 a2 a3].
  destruct m, ro, ma, ss; mrun; split_ifs;
    repeat split; intros; rewrite ?Z.leb_le in *; congruence.
Qed.

(** C7: given the should-run signal, the step line flips exactly when
    [micros() - lastStepTime >= STEP_INTERVAL] (modulo 2^32), recording
    [lastStepTime = now] and driving the new phase; otherwise nothing
    changes and nothing is written.  Over a whole loop iteration the phase
    flips only after [STEP_INTERVAL] has elapsed since the last flip, whose
    time is the only value [lastStepTime] ever takes. *)
Theorem stepPulse_flips_exactly_when_elapsed
    (b : bool) (us : Z) (s : State) (inp : LoopInput) :
  stepPulse b us s =
    (if b && (stepInterval <=? sub32 us (lastStepTime s)) then
       (tt, set_stepState (negb (stepState s)) (set_lastStepTime us s),
        [DigitalWrite STEPPER_STEP_PIN (level_of_bool (negb (stepState s)))])
     else (tt, s, [])) /\
  (let s' := exec (loop inp) s in
   (stepState s' <> stepState s ->
      stepInterval <= sub32 (stepperMicros inp) (lastStepTime s) /\
      lastStepTime s' = stepperMicros inp) /\
   (stepState s' = stepState s -> lastStepTime s' = lastStepTime s)).
Proof.
  split.
  - destruct b; [|reflexivity].
    destruct s; mrun.
    destruct (stepInterval <=? sub32 us _); reflexivity.
  - cbv zeta. rewrite exec_loop.
    destruct (checkSerialCommands_pulse_frame (serialByte inp)
      (exec (checkIrSensor (irReading inp) (irMillis inp))
        (exec (handleStepper (stepperMillis inp) (stepperMicros inp)) s)))
      as [-> ->].
    destruct (checkIrSensor_pulse_frame (irReading inp) (irMillis inp)
      (exec (handleStepper (stepperMillis inp) (stepperMicros inp)) s))
      as [-> ->].
    apply handleStepper_pulse.
Qed.

Lemma stepPulse_flips_exactly_when_elapsed_witness :
  stepInterval <= sub32 300000 (lastStepTime (state_after 3)) /\
  lastStepTime (exec (loop (mkInput 300 300000 HIGH 300 None)) (state_after 3))
    = 300000.
Proof.
  destruct (stepPulse_flips_exactly_when_elapsed true 300000 (state_after 3)
              (mkInput 300 300000 HIGH 300 None)) as [_ [H1 _]].
  apply H1. vm_compute. congruence.
Defined.

(** C4 (code diverges): the 'C' branch skips the trigger-state reset (see
    C5), so a run-out survives into CONTINUOUS, where the handler never
    looks at it.  In the scripted session 'C' arrives during a run-out; at
    9000 ms, long past [runOutStartTime + 7000], the run-out is still set. *)
Lemma runOut_not_ended_outside_TRIGGER_cex :
  ~ (forall (ms us : Z) (s : State),
       inRunOutPhase s = true ->
       runOutDuration <= sub32 ms (runOutStartTime s) ->
       inRunOutPhase (exec (handleStepper ms us) s) = false).
Proof.
  intros H.
  assert (H1 : inRunOutPhase (state_after 6) = true) by reflexivity.
  assert (H2 : runOutDuration <= sub32 9000 (runOutStartTime (state_after 6)))
    by (vm_compute; discriminate).
  specialize (H 9000 900000 (state_after 6) H1 H2).
  vm_compute in H. discriminate.
Qed.

(** The run-out expiry of lines 89-97: in TRIGGER mode an evaluation at
    which [millis() - runOutStartTime >= 7000] (modulo 2^32) ends an
    active run-out and clears [motorActiveForTrigger]; in IDLE and
    CONTINUOUS the handler leaves both flags as they are. *)
Theorem runOut_expiry_in_TRIGGER (ms us : Z) (s : State) :
  (currentMode s = TRIGGER -> inRunOutPhase s = true ->
   runOutDuration <= sub32 ms (runOutStartTime s) ->
   inRunOutPhase (exec (handleStepper ms us) s) = false /\
   motorActiveForTrigger (exec (handleStepper ms us) s) = false) /\
  (currentMode s <> TRIGGER ->
   inRunOutPhase (exec (handleStepper ms us) s) = inRunOutPhase s /\
   motorActiveForTrigger (exec (handleStepper ms us) s) =
     motorActiveForTrigger s).
Proof.
  destruct s as [m lst ss ma ro rs st fl lc bs bb lt a1 a2 a3].
  cbn [currentMode inRunOutPhase runOutStartTime motorActiveForTrigger].
  split.
  - intros -> -> Hle. mrun. split_ifs; try (split; reflexivity);
      rewrite Z.ltb_lt in *; lia.
  - intros Hm. destruct m; [| |congruence]; mrun; split_ifs; split; reflexivity.
Qed.

(* ------------------------------------------------------------------ *)
(** ** Debounced edge detector *)

Lemma sub32_diag (a : Z) : sub32 a a = 0.
Proof. unfold sub32. rewrite Z.sub_diag. reflexivity. Qed.

(** The commit condition of lines 129-137. *)
Definition commits (raw ms : Z) (s : State) : Prop :=
  raw = lastFlickerIrState s /\ raw <> lastStableIrState s /\
  debounceDelay < sub32 ms (lastStateChangeTime s).

Lemma checkIrSensor_no_commit (raw ms : Z) (s : State) :
  ~ commits raw ms s ->
  checkIrSensor raw ms s =
    (tt, set_lastFlickerIrState raw
           (if raw =? lastFlickerIrState s then s
            else set_lastStateChangeTime ms s), []).
Proof.
  unfold commits. intros Hn.
  destruct s as [m lst ss ma ro rs st fl lc bs bb lt a1 a2 a3]; cbn in *.
  destruct (Z.eqb_spec raw fl) as [<-|Hf].
  - mrun.
    destruct (Z.ltb_spec debounceDelay (sub32 ms lc)); cbn; [|reflexivity].
    destruct (Z.eqb_spec raw st) as [<-|]; cbn; [reflexivity|].
    exfalso. tauto.
  - mrun. rewrite sub32_diag.
    reflexivity.
Qed.

Lemma checkIrSensor_commit (raw ms : Z) (s : State) :
  commits raw ms s ->
  lastStableIrState (exec (checkIrSensor raw ms) s) = raw /\
  lastFlickerIrState (exec (checkIrSensor raw ms) s) = raw.
Proof.
  unfold commits. intros (Hf & Hs & Hd).
  destruct s as [m lst ss ma ro rs st fl lc bs bb lt a1 a2 a3]; cbn in *.
  subst fl. mrun. rewrite ?Z.eqb_refl.
  apply Z.ltb_lt in Hd. rewrite Hd. apply Z.eqb_neq in Hs. rewrite Hs. cbn.
  split_ifs; split; reflexivity.
Qed.

Lemma commits_dec (raw ms : Z) (s : State) :
  {commits raw ms s} + {~ commits raw ms s}.
Proof.
  unfold commits.
  destruct (Z.eq_dec raw (lastFlickerIrState s)) as [H1|H1];
  [|right; tauto].
  destruct (Z.eq_dec raw (lastStableIrState s)) as [H2|H2]; [right; tauto|].
  destruct (Z_lt_dec debounceDelay (sub32 ms (lastStateChangeTime s)))
    as [H3|H3]; [left; tauto|right; tauto].
Qed.

Lemma checkIrSensor_no_commit_stable (raw ms : Z) (s : State) :
  ~ commits raw ms s ->
  effects (checkIrSensor raw ms) s = [] /\
  lastStableIrState (exec (checkIrSensor raw ms) s) = lastStableIrState s.
Proof.
  intros Hn. unfold effects, exec.
  rewrite (checkIrSensor_no_commit raw ms s Hn). cbn.
  split; [reflexivity|]. destruct s; destruct (raw =? _); reflexivity.
Qed.

Lemma sense_commits_settled (raw : Z) (s : State) (ts : list Z) :
  lastStableIrState s = raw -> sense_commits raw s ts = O.
Proof.
  revert s. induction ts as [|t ts IH]; intros s Hs; [reflexivity|].
  assert (Hn : ~ commits raw t s)
    by (unfold commits; intros (_ & H & _); congruence).
  cbn [sense_commits].
  rewrite (proj2 (checkIrSensor_no_commit_stable raw t s Hn)), Z.eqb_refl.
  apply IH. rewrite (proj2 (checkIrSensor_no_commit_stable raw t s Hn)).
  exact Hs.
Qed.

Lemma sense_commits_at_most_one (raw : Z) (s : State) (ts : list Z) :
  (sense_commits raw s ts <= 1)%nat.
Proof.
  revert s. induction ts as [|t ts IH]; intros s; cbn [sense_commits]; [lia|].
  destruct (commits_dec raw t s) as [Hc|Hc].
  - rewrite (sense_commits_settled raw _ ts)
      by apply (checkIrSensor_commit raw t s Hc).
    destruct (_ =? _); lia.
  - rewrite (proj2 (checkIrSensor_no_commit_stable raw t s Hc)), Z.eqb_refl.
    apply IH.
Qed.

(** C1: the stable level changes only when the reading equals the previous
    reading, differs from the stable level, and
    [millis() - lastStateChangeTime > 50] (modulo 2^32); it then becomes the
    reading, and it does whenever these hold.  Only a stable change prints
    anything.  A reading that differs from the previous one (the first
    sample of any flicker) changes nothing and prints nothing.  Over any run
    of calls reading one constant level the stable level changes at most
    once. *)
Theorem debounce_commit_rule (raw ms : Z) (s : State) (ts : list Z) :
  let s' := exec (checkIrSensor raw ms) s in
  (lastStableIrState s' <> lastStableIrState s ->
     raw = lastFlickerIrState s /\ raw <> lastStableIrState s /\
     debounceDelay < sub32 ms (lastStateChangeTime s) /\
     lastStableIrState s' = raw) /\
  (raw = lastFlickerIrState s -> raw <> lastStableIrState s ->
     debounceDelay < sub32 ms (lastStateChangeTime s) ->
     lastStableIrState s' = raw) /\
  (effects (checkIrSensor raw ms) s <> [] ->
     lastStableIrState s' <> lastStableIrState s) /\
  (raw <> lastFlickerIrState s ->
     effects (checkIrSensor raw ms) s = [] /\
     lastStableIrState s' = lastStableIrState s) /\
  (sense_commits raw s ts <= 1)%nat.
Proof.
  cbv zeta. split; [|split; [|split; [|split]]].
  - intros Hch. destruct (commits_dec raw ms s) as [Hc|Hc].
    + pose proof (proj1 (checkIrSensor_commit raw ms s Hc)).
      destruct Hc as (H1 & H2 & H3). auto.
    + exfalso. apply Hch, (checkIrSensor_no_commit_stable raw ms s Hc).
  - intros H1 H2 H3. apply (checkIrSensor_commit raw ms s). unfold commits.
    auto.
  - intros Hne Heq. apply Hne. apply checkIrSensor_no_commit_stable.
    intros Hc. rewrite (proj1 (checkIrSensor_commit raw ms s Hc)) in Heq.
    destruct Hc as (_ & H & _). auto.
  - intros Hf. apply checkIrSensor_no_commit_stable. unfold commits. tauto.
  - apply sense_commits_at_most_one.
Qed.

Lemma debounce_commit_rule_witness :
  lastStableIrState (exec (checkIrSensor LOW 200) (state_after 2)) = LOW /\
  (effects (checkIrSensor HIGH 120) (state_after 2) = [] /\
   lastStableIrState (exec (checkIrSensor HIGH 120) (state_after 2)) =
     lastStableIrState (state_after 2)).
Proof.
  destruct (debounce_commit_rule LOW 200 (state_after 2) [])
    as (_ & H2 & _).
  destruct (debounce_commit_rule HIGH 120 (state_after 2) [])
    as (_ & _ & _ & H4 & _).
  split.
  - apply H2; vm_compute; congruence.
  - apply H4. vm_compute. congruence.
Defined.

(* ------------------------------------------------------------------ *)
(** ** Host-bound lines and the beam timing *)

Lemma lines_from_app (c : string) (l1 l2 : list Event) :
  lines_from c (l1 ++ l2) =
  lines_from c l1 ++ lines_from (pending_text c l1) l2.
Proof.
  revert c. induction l1 as [|e l1 IH]; intros c; [reflexivity|].
  destruct e; cbn; rewrite ?IH; reflexivity.
Qed.

(** Lines that are neither "B" nor a length line. *)
Definition other_lines (ls : list string) : Prop :=
  Forall (fun l => String.eqb l "B" = false /\ is_length_line l = false) ls.

Lemma scan_lengths_other (p : option Z) (t : Z) (ls : list string) :
  other_lines ls -> scan_lengths p t ls = Some p.
Proof.
  induction 1 as [|l ls [H1 H2] _ IH]; cbn; [reflexivity|].
  rewrite H1, H2. exact IH.
Qed.

Lemma scan_B_L_other (p : bool) (ls : list string) :
  other_lines ls -> scan_B_L p ls = Some p.
Proof.
  induction 1 as [|l ls [H1 H2] _ IH]; cbn; [reflexivity|].
  rewrite H1, H2. exact IH.
Qed.

Lemma scan_lengths_app (p : option Z) (t : Z) (a b : list string) :
  scan_lengths p t (a ++ b) =
  match scan_lengths p t a with
  | Some p' => scan_lengths p' t b
  | None => None
  end.
Proof.
  revert p. induction a as [|l a IH]; intros p; [reflexivity|]. cbn.
  destruct (String.eqb l "B"); [apply IH|].
  destruct (is_length_line l); [|apply IH].
  destruct p as [t0|]; [|reflexivity].
  destruct (String.eqb l (length_line t0 t)); [apply IH|reflexivity].
Qed.

Lemma scan_B_L_app (p : bool) (a b : list string) :
  scan_B_L p (a ++ b) =
  match scan_B_L p a with Some p' => scan_B_L p' b | None => None end.
Proof.
  revert p. induction a as [|l a IH]; intros p; [reflexivity|]. cbn.
  destruct (String.eqb l "B"); [apply IH|].
  destruct (is_length_line l); [|apply IH].
  destruct p; [apply IH|reflexivity].
Qed.

(** [handleStepper] prints only complete status lines and leaves the beam
    timing alone. *)
Lemma handleStepper_lines (ms us : Z) (s : State) :
  pending_text "" (effects (handleStepper ms us) s) = ""%string /\
  other_lines (serial_lines (effects (handleStepper ms us) s)) /\
  beamIsBroken (exec (handleStepper ms us) s) = beamIsBroken s /\
  beamBrokenStartTime (exec (handleStepper ms us) s) = beamBrokenStartTime s.
Proof.
  destruct s as [m lst ss ma ro rs st fl lc bs bb lt a1 a2 a3].
  destruct m; mrun; split_ifs; unfold other_lines;
    repeat split; repeat constructor.
Qed.

(** [checkSerialCommands] prints only mode confirmations and leaves the
    beam timing alone. *)
Lemma checkSerialCommands_lines (c : option ascii) (s : State) :
  pending_text "" (effects (checkSerialCommands c) s) = ""%string /\
  other_lines (serial_lines (effects (checkSerialCommands c) s)) /\
  beamIsBroken (exec (checkSerialCommands c) s) = beamIsBroken s /\
  beamBrokenStartTime (exec (checkSerialCommands c) s) = beamBrokenStartTime s.
Proof.
  destruct s as [m lst ss ma ro rs st fl lc bs bb lt a1 a2 a3].
  destruct c; mrun; split_ifs; unfold other_lines;
    repeat split; repeat constructor.
Qed.

(** The three outcomes of one sensor poll for the host: a "B" line that
    records the time, a single length line measured from the recorded
    time while the beam is marked broken, or nothing. *)
Lemma checkIrSensor_lines (raw ms : Z) (s : State) :
  let s' := exec (checkIrSensor raw ms) s in
  let out := serial_lines (effects (checkIrSensor raw ms) s) in
  pending_text "" (effects (checkIrSensor raw ms) s) = ""%string /\
  ((out = ["B"%string] /\ beamIsBroken s' = true /\
    beamBrokenStartTime s' = ms) \/
   (out = [length_line (beamBrokenStartTime s) ms] /\
    beamIsBroken s = true /\ beamIsBroken s' = false /\
    effects (checkIrSensor raw ms) s =
      [SerialPrintln (length_line (beamBrokenStartTime s) ms)]) \/
   (out = [] /\ beamIsBroken s' = beamIsBroken s /\
    beamBrokenStartTime s' = beamBrokenStartTime s)).
Proof.
  destruct s as [m lst ss ma ro rs st fl lc bs bb lt a1 a2 a3].
  destruct m, bb; mrun; split_ifs; cbn;
    first [ split; [reflexivity|]; left; repeat split; reflexivity
          | split; [reflexivity|]; right; left; repeat split; reflexivity
          | split; [reflexivity|]; right; right; repeat split; reflexivity ].
Qed.

Lemma length_line_is_length_line (t0 t : Z) :
  is_length_line (length_line t0 t) = true.
Proof.
  unfold is_length_line, length_line.
  generalize (String_of_ulong (sub32 t t0)). reflexivity.
Qed.

Lemma length_line_not_B (t0 t : Z) :
  String.eqb (length_line t0 t) "B" = false.
Proof.
  unfold length_line. generalize (String_of_ulong (sub32 t t0)).
  reflexivity.
Qed.

Lemma pending_text_app (c : string) (l1 l2 : list Event) :
  pending_text c (l1 ++ l2) = pending_text (pending_text c l1) l2.
Proof.
  revert c. induction l1 as [|e l1 IH]; intros c; [reflexivity|].
  destruct e; cbn; apply IH.
Qed.

(** What the host has been told about the beam: the time of the
    unanswered "B", if any. *)
Definition beam_pending (s : State) : option Z :=
  if beamIsBroken s then Some (beamBrokenStartTime s) else None.

Lemma loop_lines (inp : LoopInput) (s : State) :
  let evs := effects (loop inp) s in
  let s' := exec (loop inp) s in
  pending_text "" evs = ""%string /\
  scan_lengths (beam_pending s) (irMillis inp) (serial_lines evs) =
    Some (beam_pending s') /\
  scan_B_L (beamIsBroken s) (serial_lines evs) = Some (beamIsBroken s').
Proof.
  cbv zeta. rewrite effects_loop, exec_loop. cbv zeta.
  set (s1 := exec (handleStepper (stepperMillis inp) (stepperMicros inp)) s).
  set (s2 := exec (checkIrSensor (irReading inp) (irMillis inp)) s1).
  destruct (handleStepper_lines (stepperMillis inp) (stepperMicros inp) s)
    as (P1 & O1 & B1 & T1).
  destruct (checkIrSensor_lines (irReading inp) (irMillis inp) s1)
    as (P2 & Hir).
  destruct (checkSerialCommands_lines (serialByte inp) s2)
    as (P3 & O3 & B3 & T3).
  fold s1 in P1, O1, B1, T1. fold s2 in P2, Hir.
  unfold serial_lines in *.
  rewrite !lines_from_app, !pending_text_app, P1, P2, P3.
  rewrite !scan_lengths_app, !scan_B_L_app.
  rewrite (scan_lengths_other _ _ _ O1), (scan_B_L_other _ _ O1).
  unfold beam_pending. rewrite B3, T3, <- B1, <- T1.
  split; [reflexivity|].
  destruct Hir as [(-> & Hb & Ht) | [(-> & Hb & Hb' & _) | (-> & Hb & Ht)]].
  - cbn. rewrite Hb, Ht.
    rewrite (scan_lengths_other _ _ _ O3), (scan_B_L_other _ _ O3).
    split; reflexivity.
  - cbn. rewrite Hb, Hb', length_line_not_B, length_line_is_length_line,
      String.eqb_refl.
    rewrite (scan_lengths_other _ _ _ O3), (scan_B_L_other _ _ O3).
    split; reflexivity.
  - cbn. rewrite Hb, Ht.
    rewrite (scan_lengths_other _ _ _ O3), (scan_B_L_other _ _ O3).
    split; reflexivity.
Qed.

Lemma loop_exec_effects (inp : LoopInput) (s : State) :
  loop inp s =
  (fst (fst (loop inp s)), exec (loop inp) s, effects (loop inp) s).
Proof. unfold exec, effects. destruct (loop inp s) as [[u s1] evs]. reflexivity. Qed.

Lemma run_trace_lengths (s : State) (inps : list LoopInput) :
  lengths_ok (beam_pending s) (snd (run_trace s inps)) = true.
Proof.
  revert s. induction inps as [|inp inps IH]; intros s; [reflexivity|].
  cbn [run_trace]. rewrite loop_exec_effects.
  destruct (run_trace (exec (loop inp) s) inps) as [s2 tr] eqn:E.
  cbn [snd lengths_ok].
  destruct (loop_lines inp s) as (_ & -> & _).
  specialize (IH (exec (loop inp) s)). rewrite E in IH. exact IH.
Qed.

Lemma run_trace_B_L (s : State) (inps : list LoopInput) :
  pending_text "" (all_effects (snd (run_trace s inps))) = ""%string /\
  scan_B_L (beamIsBroken s) (serial_lines (all_effects (snd (run_trace s inps))))
    = Some (beamIsBroken (fst (run_trace s inps))).
Proof.
  revert s. induction inps as [|inp inps IH]; intros s; [split; reflexivity|].
  cbn [run_trace]. rewrite loop_exec_effects.
  destruct (run_trace (exec (loop inp) s) inps) as [s2 tr] eqn:E.
  specialize (IH (exec (loop inp) s)). rewrite E in IH. destruct IH as [IP IS].
  destruct (loop_lines inp s) as (P & _ & L).
  unfold all_effects in *. cbn [snd fst map concat].
  unfold serial_lines in *.
  rewrite pending_text_app, P, lines_from_app, P, scan_B_L_app, L.
  split; assumption.
Qed.

(** C2: a stable "cleared" transition while the beam is marked broken
    prints exactly one line, [L:<millis() - beamBrokenStartTime>] in decimal
    (modulo 2^32), and nothing else.  Over every run from power-up, each
    length line carries the time of its own sensor poll minus the time of
    the sensor poll that printed the matching "B". *)
Theorem length_report (raw ms : Z) (s : State) (inps : list LoopInput) :
  (beamIsBroken s = true -> commits raw ms s -> raw <> LOW ->
   effects (checkIrSensor raw ms) s =
     [SerialPrintln ("L:" ++ String_of_ulong
                              (sub32 ms (beamBrokenStartTime s)))%string]) /\
  lengths_ok None (snd (run_trace initState inps)) = true.
Proof.
  split.
  - intros Hb (Hf & Hs & Hd) Hl.
    destruct s as [m lst ss ma ro rs st fl lc bs bb lt a1 a2 a3].
    cbn in *. subst bb fl. mrun. rewrite Z.eqb_refl.
    apply Z.ltb_lt in Hd. apply Z.eqb_neq in Hs. apply Z.eqb_neq in Hl.
    cbn. rewrite Hd, Hs, Hl. cbn. split_ifs; reflexivity.
  - apply (run_trace_lengths initState inps).
Qed.

Lemma length_report_witness :
  effects (checkIrSensor HIGH 400) (state_after 4) =
    [SerialPrintln "L:200"].
Proof.
  destruct (length_report HIGH 400 (state_after 4) []) as [H _].
  rewrite H.
  - reflexivity.
  - reflexivity.
  - unfold commits. vm_compute. repeat split; congruence.
  - vm_compute. congruence.
Defined.

(** C10: a stable "cleared" transition while the beam is not marked broken
    prints no length line; over every run from power-up, each length line
    comes after a "B" line with no other length line in between. *)
Theorem length_lines_follow_B (raw ms : Z) (s : State) (inps : list LoopInput) :
  (beamIsBroken s = false ->
   forallb (fun l => negb (is_length_line l))
     (serial_lines (effects (checkIrSensor raw ms) s)) = true) /\
  B_before_L (serial_lines (all_effects (snd (run_trace initState inps))))
    = true.
Proof.
  split.
  - intros Hb.
    destruct (checkIrSensor_lines raw ms s)
      as (_ & [(-> & _) | [(_ & Hb' & _) | (-> & _)]]);
      [reflexivity | congruence | reflexivity].
  - unfold B_before_L.
    destruct (run_trace_B_L initState inps) as [_ H].
    change (beamIsBroken initState) with false in H.
    rewrite H. reflexivity.
Qed.

Lemma length_lines_follow_B_witness :
  forallb (fun l => negb (is_length_line l))
    (serial_lines (effects (checkIrSensor HIGH 400)
       (set_beamIsBroken false (state_after 4)))) = true.
Proof.
  destruct (length_lines_follow_B HIGH 400 (set_beamIsBroken false
              (state_after 4)) []) as [H _].
  apply H. reflexivity.
Defined.

(* ------------------------------------------------------------------ *)
(** ** Order of the duties inside [loop()] *)

Lemma handleStepper_keeps_mode (ms us : Z) (s : State) :
  currentMode (exec (handleStepper ms us) s) = currentMode s.
Proof.
  destruct s as [m lst ss ma ro rs st fl lc bs bb lt a1 a2 a3].
  destruct m; mrun; split_ifs; reflexivity.
Qed.

Lemma handleStepper_enable_trigger (ms us : Z) (s : State) :
  currentMode s = TRIGGER -> inRunOutPhase s = false ->
  hd_error (effects (handleStepper ms us) s) =
    Some (DigitalWrite STEPPER_ENA_PIN
            (if motorActiveForTrigger s then LOW else HIGH)).
Proof.
  destruct s as [m lst ss ma ro rs st fl lc bs bb lt a1 a2 a3].
  cbn. intros -> ->. mrun. split_ifs; reflexivity.
Qed.

Lemma handleStepper_no_B (ms us : Z) (s : State) :
  ~ In (SerialPrintln "B") (effects (handleStepper ms us) s).
Proof.
  destruct s as [m lst ss ma ro rs st fl lc bs bb lt a1 a2 a3].
  destruct m; mrun; split_ifs; cbn; intuition discriminate.
Qed.

Lemma checkIrSensor_B_in_TRIGGER (raw ms : Z) (s : State) :
  currentMode s = TRIGGER ->
  In (SerialPrintln "B") (effects (checkIrSensor raw ms) s) ->
  currentMode (exec (checkIrSensor raw ms) s) = TRIGGER /\
  motorActiveForTrigger (exec (checkIrSensor raw ms) s) = true /\
  inRunOutPhase (exec (checkIrSensor raw ms) s) = false.
Proof.
  destruct s as [m lst ss ma ro rs st fl lc bs bb lt a1 a2 a3].
  cbn. intros ->. mrun. split_ifs; cbn; intuition discriminate.
Qed.

Lemma effects_checkSerialCommands_None (s : State) :
  effects (checkSerialCommands None) s = [] /\
  exec (checkSerialCommands None) s = s.
Proof. split; reflexivity. Qed.

(** C6 (as stated) fails: the sketch runs [handleStepper] before
    [checkIrSensor].  In the scripted session, the iteration at 200 ms
    accepts the beam-broken edge in TRIGGER mode, yet the enable line of
    that same iteration is driven HIGH (motor off). *)
Lemma sensor_edge_not_seen_same_iteration_cex :
  ~ (forall (s : State) (inp : LoopInput),
       currentMode s = TRIGGER ->
       In (SerialPrintln "B") (effects (loop inp) s) ->
       hd_error (effects (loop inp) s) =
         Some (DigitalWrite STEPPER_ENA_PIN LOW)).
Proof.
  intros H.
  specialize (H (state_after 2) (mkInput 200 200000 LOW 200 None)).
  assert (Hm : currentMode (state_after 2) = TRIGGER) by reflexivity.
  assert (Hb : In (SerialPrintln "B")
                 (effects (loop (mkInput 200 200000 LOW 200 None))
                    (state_after 2)))
    by (vm_compute; tauto).
  specialize (H Hm Hb). vm_compute in H. discriminate.
Qed.

(** C6 (amended): an iteration runs [handleStepper] (mode evaluation,
    enable line, step pulse, status line), then [checkIrSensor], then
    [checkSerialCommands] on at most one byte, each on the state the
    previous one left.  So in TRIGGER mode with the motor idle, the enable
    line of an iteration is driven HIGH whatever the sensor reads, and a
    beam-broken edge accepted in it (with no command) drives the enable
    line LOW from the next iteration on. *)
Theorem loop_duty_order (inp : LoopInput) (s : State) :
  (let s1 := exec (handleStepper (stepperMillis inp) (stepperMicros inp)) s in
   let s2 := exec (checkIrSensor (irReading inp) (irMillis inp)) s1 in
   effects (loop inp) s =
     effects (handleStepper (stepperMillis inp) (stepperMicros inp)) s ++
     effects (checkIrSensor (irReading inp) (irMillis inp)) s1 ++
     effects (checkSerialCommands (serialByte inp)) s2 /\
   exec (loop inp) s = exec (checkSerialCommands (serialByte inp)) s2) /\
  (currentMode s = TRIGGER -> motorActiveForTrigger s = false ->
   inRunOutPhase s = false ->
   hd_error (effects (loop inp) s) =
     Some (DigitalWrite STEPPER_ENA_PIN HIGH) /\
   (serialByte inp = None ->
    In (SerialPrintln "B") (effects (loop inp) s) ->
    forall inp' : LoopInput,
      hd_error (effects (loop inp') (exec (loop inp) s)) =
        Some (DigitalWrite STEPPER_ENA_PIN LOW))).
Proof.
  split.
  - cbv zeta. split; [apply effects_loop | apply exec_loop].
  - intros Hm Hma Hro.
    assert (Hhd : forall (inp0 : LoopInput) (s0 : State),
               currentMode s0 = TRIGGER -> inRunOutPhase s0 = false ->
               hd_error (effects (loop inp0) s0) =
                 Some (DigitalWrite STEPPER_ENA_PIN
                         (if motorActiveForTrigger s0 then LOW else HIGH))).
    { intros inp0 s0 Hm0 Hr0. rewrite effects_loop.
      pose proof (handleStepper_enable_trigger (stepperMillis inp0)
                    (stepperMicros inp0) s0 Hm0 Hr0) as E.
      destruct (effects (handleStepper _ _) s0); [discriminate|].
      exact E. }
    split; [rewrite (Hhd inp s Hm Hro), Hma; reflexivity|].
    intros Hc Hb inp'.
    rewrite effects_loop in Hb. rewrite exec_loop, Hc.
    rewrite Hc in Hb. cbn zeta in Hb.
    rewrite (proj1 (effects_checkSerialCommands_None _)), app_nil_r in Hb.
    rewrite (proj2 (effects_checkSerialCommands_None _)).
    apply in_app_or in Hb. destruct Hb as [Hb|Hb];
      [exfalso; exact (handleStepper_no_B _ _ _ Hb)|].
    pose proof (handleStepper_keeps_mode (stepperMillis inp)
                  (stepperMicros inp) s) as Hk.
    rewrite Hm in Hk.
    destruct (checkIrSensor_B_in_TRIGGER _ _ _ Hk Hb) as (H1 & H2 & H3).
    rewrite (Hhd inp' _ H1 H3), H2. reflexivity.
Qed.

Lemma loop_duty_order_witness :
  hd_error (effects (loop (mkInput 200 200000 LOW 200 None)) (state_after 2))
    = Some (DigitalWrite STEPPER_ENA_PIN HIGH) /\
  hd_error (effects (loop (mkInput 300 300000 HIGH 300 None))
              (exec (loop (mkInput 200 200000 LOW 200 None)) (state_after 2)))
    = Some (DigitalWrite STEPPER_ENA_PIN LOW).
Proof.
  destruct (loop_duty_order (mkInput 200 200000 LOW 200 None) (state_after 2))
    as [_ H].
  assert (Hm : currentMode (state_after 2) = TRIGGER) by reflexivity.
  assert (Ha : motorActiveForTrigger (state_after 2) = false) by reflexivity.
  assert (Hr : inRunOutPhase (state_after 2) = false) by reflexivity.
  destruct (H Hm Ha Hr) as [H1 H2].
  split; [exact H1|].
  apply H2; [reflexivity|]. vm_compute. tauto.
Defined.

(* ================================================================== *)
(** * Further properties of the controller *)

(** ** Invariants of every state reachable from power-up *)

Definition ctrl_inv (s : State) : Prop :=
  beamIsBroken s = (lastStableIrState s =? LOW) /\
  (inRunOutPhase s = true -> motorActiveForTrigger s = true) /\
  (currentMode s = IDLE ->
     motorActiveForTrigger s = false /\ inRunOutPhase s = false) /\
  servo1Angle s = 0 /\ servo2Angle s = 0 /\ servo3Angle s = 0.

Ltac inv_crunch :=
  repeat split; intros; cbn in *;
  try discriminate; try congruence; try tauto.

Lemma handleStepper_inv (ms us : Z) (s : State) :
  ctrl_inv s -> ctrl_inv (exec (handleStepper ms us) s).
Proof.
  destruct s as [m lst ss ma ro rs st fl lc bs bb lt a1 a2 a3].
  unfold ctrl_inv; cbn. intros (H1 & H2 & H3 & H4 & H5 & H6).
  destruct m, ma, ro; mrun; split_ifs; inv_crunch.
Qed.

Lemma checkIrSensor_inv (raw ms : Z) (s : State) :
  ctrl_inv s -> ctrl_inv (exec (checkIrSensor raw ms) s).
Proof.
  destruct s as [m lst ss ma ro rs st fl lc bs bb lt a1 a2 a3].
  unfold ctrl_inv; cbn. intros (H1 & H2 & H3 & H4 & H5 & H6).
  destruct m, ma, ro, bb; mrun; split_ifs; inv_crunch.
Qed.

Lemma checkSerialCommands_inv (c : option ascii) (s : State) :
  ctrl_inv s -> ctrl_inv (exec (checkSerialCommands c) s).
Proof.
  destruct s as [m lst ss ma ro rs st fl lc bs bb lt a1 a2 a3].
  unfold ctrl_inv; cbn. intros (H1 & H2 & H3 & H4 & H5 & H6).
  destruct c; [|mrun; inv_crunch].
  destruct m, ma, ro; mrun; split_ifs; inv_crunch.
Qed.

Lemma loop_inv (inp : LoopInput) (s : State) :
  ctrl_inv s -> ctrl_inv (exec (loop inp) s).
Proof.
  intros H. rewrite exec_loop.
  apply checkSerialCommands_inv, checkIrSensor_inv, handleStepper_inv, H.
Qed.

Lemma run_trace_fst_cons (s : State) (inp : LoopInput) (inps : list LoopInput) :
  fst (run_trace s (inp :: inps)) = fst (run_trace (exec (loop inp) s) inps).
Proof.
  cbn [run_trace]. rewrite loop_exec_effects.
  destruct (run_trace (exec (loop inp) s) inps). reflexivity.
Qed.

Lemma run_inv (inps : list LoopInput) :
  ctrl_inv (fst (run_trace initState inps)).
Proof.
  assert (H0 : ctrl_inv initState) by (repeat split; discriminate).
  revert H0. generalize initState.
  induction inps as [|inp inps IH]; intros s Hs; [exact Hs|].
  rewrite run_trace_fst_cons. apply IH, loop_inv, Hs.
Qed.

(** X1. After any sequence of loop iterations from power-up, the beam
    flag [beamIsBroken] is set exactly when the debounced level is LOW. *)
Theorem reachable_beam_flag_mirrors_stable_level (inps : list LoopInput) :
  let s := fst (run_trace initState inps) in
  beamIsBroken s = (lastStableIrState s =? LOW).
Proof. apply (run_inv inps). Qed.

(** X2. After any sequence of loop iterations from power-up, a running
    run-out phase implies that the trigger motor flag is set. *)
Theorem reachable_runOut_implies_motor (inps : list LoopInput) :
  let s := fst (run_trace initState inps) in
  inRunOutPhase s = true -> motorActiveForTrigger s = true.
Proof. apply (run_inv inps). Qed.

(** X3. After any sequence of loop iterations from power-up, in IDLE mode
    both trigger flags are clear. *)
Theorem reachable_idle_flags_clear (inps : list LoopInput) :
  let s := fst (run_trace initState inps) in
  currentMode s = IDLE ->
  motorActiveForTrigger s = false /\ inRunOutPhase s = false.
Proof. apply (run_inv inps). Qed.

(** X4. After any sequence of loop iterations from power-up, every servo
    gate is back at 0 degrees. *)
Theorem reachable_gates_closed (inps : list LoopInput) :
  let s := fst (run_trace initState inps) in
  servo1Angle s = 0 /\ servo2Angle s = 0 /\ servo3Angle s = 0.
Proof. apply (run_inv inps). Qed.

(** X5. [handleStepper] prints the status line
    "Mode: <mode> | Motor Active: YES|NO" exactly when more than 1000 ms
    (mod 2^32) have passed since the last one, and then records the time;
    otherwise it prints nothing and keeps the old time. *)
Theorem status_line_throttled (ms us : Z) (s : State) :
  let b := fst (fst (evalShouldBeActive ms s)) in
  let due := 1000 <? sub32 ms (lastStatusTime s) in
  serial_lines (effects (handleStepper ms us) s) =
    (if due
     then [("Mode: " ++ modeName (currentMode s) ++ " | Motor Active: "
            ++ (if b then "YES" else "NO"))%string]
     else []) /\
  lastStatusTime (exec (handleStepper ms us) s) =
    (if due then ms else lastStatusTime s).
Proof.
  destruct s as [m lst ss ma ro rs st fl lc bs bb lt a1 a2 a3].
  destruct m, ma, ro; mrun; split_ifs; split; reflexivity.
Qed.

(** X6. [checkIrSensor] never changes the mode, the step pulse state, the
    status timer or the servo angles; outside TRIGGER mode it also leaves
    the trigger flags and the run-out start time alone. *)
Theorem checkIrSensor_frame (raw ms : Z) (s : State) :
  let s' := exec (checkIrSensor raw ms) s in
  currentMode s' = currentMode s /\ lastStepTime s' = lastStepTime s /\
  stepState s' = stepState s /\ lastStatusTime s' = lastStatusTime s /\
  servo1Angle s' = servo1Angle s /\ servo2Angle s' = servo2Angle s /\
  servo3Angle s' = servo3Angle s /\
  (currentMode s <> TRIGGER ->
     motorActiveForTrigger s' = motorActiveForTrigger s /\
     inRunOutPhase s' = inRunOutPhase s /\
     runOutStartTime s' = runOutStartTime s).
Proof.
  destruct s as [m lst ss ma ro rs st fl lc bs bb lt a1 a2 a3].
  destruct m, bb; mrun; split_ifs; inv_crunch.
Qed.

(** X7. [handleStepper] never changes the mode, the sensor and beam state,
    the run-out start time or the servo angles. *)
Theorem handleStepper_frame (ms us : Z) (s : State) :
  let s' := exec (handleStepper ms us) s in
  currentMode s' = currentMode s /\
  lastStableIrState s' = lastStableIrState s /\
  lastFlickerIrState s' = lastFlickerIrState s /\
  lastStateChangeTime s' = lastStateChangeTime s /\
  beamBrokenStartTime s' = beamBrokenStartTime s /\
  beamIsBroken s' = beamIsBroken s /\
  runOutStartTime s' = runOutStartTime s /\
  servo1Angle s' = servo1Angle s /\ servo2Angle s' = servo2Angle s /\
  servo3Angle s' = servo3Angle s.
Proof.
  destruct s as [m lst ss ma ro rs st fl lc bs bb lt a1 a2 a3].
  destruct m, ma, ro; mrun; split_ifs; inv_crunch.
Qed.

(** X8. Whatever byte arrives, [checkSerialCommands] never changes the
    sensor and beam state, the step pulse state, the status timer or the
    run-out start time. *)
Theorem checkSerialCommands_frame (c : option ascii) (s : State) :
  let s' := exec (checkSerialCommands c) s in
  lastStableIrState s' = lastStableIrState s /\
  lastFlickerIrState s' = lastFlickerIrState s /\
  lastStateChangeTime s' = lastStateChangeTime s /\
  beamBrokenStartTime s' = beamBrokenStartTime s /\
  beamIsBroken s' = beamIsBroken s /\
  lastStepTime s' = lastStepTime s /\ stepState s' = stepState s /\
  lastStatusTime s' = lastStatusTime s /\
  runOutStartTime s' = runOutStartTime s.
Proof.
  destruct s as [m lst ss ma ro rs st fl lc bs bb lt a1 a2 a3].
  destruct c; [|mrun; inv_crunch].
  mrun; split_ifs; inv_crunch.
Qed.

(** ** Mode commands and the run-out, across iterations *)

Lemma hd_error_app_l {A} (l1 l2 : list A) (x : A) :
  hd_error l1 = Some x -> hd_error (l1 ++ l2) = Some x.
Proof. destruct l1; cbn; congruence. Qed.

Lemma stop_command_state (s : State) :
  let s' := exec (checkSerialCommands (Some "X"%char)) s in
  currentMode s' = IDLE /\ motorActiveForTrigger s' = false /\
  inRunOutPhase s' = false.
Proof. destruct s; mrun; cbn; auto. Qed.

Lemma handleStepper_idle (ms us : Z) (s : State) :
  currentMode s = IDLE ->
  hd_error (effects (handleStepper ms us) s) =
    Some (DigitalWrite STEPPER_ENA_PIN HIGH) /\
  lastStepTime (exec (handleStepper ms us) s) = lastStepTime s /\
  stepState (exec (handleStepper ms us) s) = stepState s.
Proof.
  destruct s as [m lst ss ma ro rs st fl lc bs bb lt a1 a2 a3].
  cbn. intros ->. mrun. split_ifs; auto.
Qed.

(** X9. An iteration that reads the byte 'X' ends in IDLE with both
    trigger flags clear, and the next iteration, whatever its inputs, first
    drives the enable line HIGH (motor off) and leaves the step line
    untouched. *)
Theorem stop_command_idles_next_iteration (inp inp' : LoopInput) (s : State) :
  serialByte inp = Some "X"%char ->
  let s1 := exec (loop inp) s in
  currentMode s1 = IDLE /\ motorActiveForTrigger s1 = false /\
  inRunOutPhase s1 = false /\
  hd_error (effects (loop inp') s1) =
    Some (DigitalWrite STEPPER_ENA_PIN HIGH) /\
  lastStepTime (exec (loop inp') s1) = lastStepTime s1 /\
  stepState (exec (loop inp') s1) = stepState s1.
Proof.
  intros Hx s1.
  assert (Hs1 : currentMode s1 = IDLE /\ motorActiveForTrigger s1 = false /\
                inRunOutPhase s1 = false).
  { unfold s1. rewrite exec_loop, Hx. apply stop_command_state. }
  destruct Hs1 as (Hm & Hma & Hro).
  destruct (handleStepper_idle (stepperMillis inp') (stepperMicros inp') s1 Hm)
    as (Hhd & Hlt & Hss).
  repeat split; auto.
  - rewrite effects_loop. apply hd_error_app_l, Hhd.
  - rewrite exec_loop.
    rewrite (proj1 (checkSerialCommands_pulse_frame _ _)).
    rewrite (proj1 (checkIrSensor_pulse_frame _ _ _)). exact Hlt.
  - rewrite exec_loop.
    rewrite (proj2 (checkSerialCommands_pulse_frame _ _)).
    rewrite (proj2 (checkIrSensor_pulse_frame _ _ _)). exact Hss.
Qed.

Lemma stop_command_idles_next_iteration_witness :
  serialByte (mkInput 0 0 HIGH 0 (Some "X"%char)) = Some "X"%char /\
  currentMode (exec (loop (mkInput 0 0 HIGH 0 (Some "X"%char))) (state_after 6))
    = IDLE.
Proof.
  split; [reflexivity|].
  destruct (stop_command_idles_next_iteration (mkInput 0 0 HIGH 0 (Some "X"%char))
              (mkInput 5 5 HIGH 5 None) (state_after 6) eq_refl) as (Hm & _).
  exact Hm.
Defined.

(** A TRIGGER-mode run-out started at [t], with the sensor settled. *)
Definition runout_at (t : Z) (s : State) : Prop :=
  currentMode s = TRIGGER /\ inRunOutPhase s = true /\
  motorActiveForTrigger s = true /\ runOutStartTime s = t /\
  lastFlickerIrState s = lastStableIrState s.

Lemma handleStepper_runout (t ms us : Z) (s : State) :
  runout_at t s ->
  let s' := exec (handleStepper ms us) s in
  lastStableIrState s' = lastStableIrState s /\
  lastFlickerIrState s' = lastFlickerIrState s /\
  currentMode s' = TRIGGER /\ runOutStartTime s' = t /\
  (sub32 ms t < runOutDuration ->
     hd_error (effects (handleStepper ms us) s) =
       Some (DigitalWrite STEPPER_ENA_PIN LOW) /\
     inRunOutPhase s' = true /\ motorActiveForTrigger s' = true) /\
  (runOutDuration <= sub32 ms t ->
     hd_error (effects (handleStepper ms us) s) =
       Some (DigitalWrite STEPPER_ENA_PIN HIGH) /\
     inRunOutPhase s' = false /\ motorActiveForTrigger s' = false).
Proof.
  destruct s as [m lst ss ma ro rs st fl lc bs bb lt a1 a2 a3].
  unfold runout_at; cbn. intros (-> & -> & -> & -> & ->).
  mrun; split_ifs; repeat split; intros; auto;
    rewrite ?Z.ltb_lt, ?Z.ltb_ge in *; lia.
Qed.

(** X10. In TRIGGER mode during a run-out started at [t], an iteration in
    which the sensor reads its settled level and no byte arrives keeps the
    motor enabled (enable line LOW) and the run-out running while less
    than 7000 ms (mod 2^32) have passed since [t]; the first such iteration
    at or after 7000 ms drives the enable line HIGH and clears both
    trigger flags, staying in TRIGGER mode. *)
Theorem runOut_quiet_iteration (t : Z) (inp : LoopInput) (s : State) :
  runout_at t s ->
  irReading inp = lastStableIrState s ->
  serialByte inp = None ->
  let s' := exec (loop inp) s in
  (sub32 (stepperMillis inp) t < runOutDuration ->
     hd_error (effects (loop inp) s) = Some (DigitalWrite STEPPER_ENA_PIN LOW) /\
     runout_at t s') /\
  (runOutDuration <= sub32 (stepperMillis inp) t ->
     hd_error (effects (loop inp) s) = Some (DigitalWrite STEPPER_ENA_PIN HIGH) /\
     currentMode s' = TRIGGER /\ motorActiveForTrigger s' = false /\
     inRunOutPhase s' = false).
Proof.
  intros Hr Hraw Hser s'.
  pose proof Hr as (_ & _ & _ & _ & Hflst).
  destruct (handleStepper_runout t (stepperMillis inp) (stepperMicros inp) s Hr)
    as (Hst & Hfl & Hm & Hstart & Hlt & Hge).
  remember (exec (handleStepper (stepperMillis inp) (stepperMicros inp)) s)
    as s1 eqn:Hs1.
  assert (Hnc : ~ commits (irReading inp) (irMillis inp) s1).
  { unfold commits. intros (_ & Hne & _). congruence. }
  pose proof (checkIrSensor_no_commit _ _ _ Hnc) as Hc.
  assert (Hfl1 : (irReading inp =? lastFlickerIrState s1) = true).
  { apply Z.eqb_eq. congruence. }
  rewrite Hfl1 in Hc.
  assert (Hex : s' = set_lastFlickerIrState (irReading inp) s1).
  { unfold s'. rewrite exec_loop, Hser, <- Hs1.
    rewrite (proj2 (effects_checkSerialCommands_None _)).
    unfold exec at 1. rewrite Hc. reflexivity. }
  assert (Hev : effects (loop inp) s =
                effects (handleStepper (stepperMillis inp) (stepperMicros inp)) s).
  { rewrite effects_loop. cbv zeta. rewrite <- Hs1, Hser.
    rewrite (proj1 (effects_checkSerialCommands_None _)).
    unfold effects at 2. rewrite Hc. cbn. apply app_nil_r. }
  rewrite Hev, Hex.
  destruct s1 as [m lst ss ma ro rs st fl lc bs bb lt a1 a2 a3].
  unfold runout_at; cbn in *.
  split; intros H.
  - destruct (Hlt H) as (Hhd & Hro & Hma). repeat split; congruence.
  - destruct (Hge H) as (Hhd & Hro & Hma). repeat split; congruence.
Qed.

Lemma runOut_quiet_iteration_witness :
  runout_at 400 (state_after 5) /\
  irReading (mkInput 500 500000 HIGH 500 None) = lastStableIrState (state_after 5) /\
  serialByte (mkInput 500 500000 HIGH 500 None) = None /\
  currentMode (exec (loop (mkInput 500 500000 HIGH 500 None)) (state_after 5))
    = TRIGGER.
Proof.
  assert (Hr : runout_at 400 (state_after 5)).
  { unfold runout_at. vm_compute. repeat split. }
  split; [exact Hr|]. split; [reflexivity|]. split; [reflexivity|].
  destruct (runOut_quiet_iteration 400 (mkInput 500 500000 HIGH 500 None)
              (state_after 5) Hr eq_refl eq_refl) as [Hlt _].
  destruct Hlt as [_ Hr']; [vm_compute; reflexivity|].
  apply Hr'.
Defined.

(** ** Sensor edges and the trigger sub-state *)

(** X11. In TRIGGER mode, an accepted LOW edge (beam broken) sets the
    motor flag and cancels any run-out; an accepted edge to another level
    (beam cleared) keeps the motor flag and, if it is set, starts the
    run-out at the current time, otherwise leaves the run-out state alone. *)
Theorem trigger_edge_substate (raw ms : Z) (s : State) :
  currentMode s = TRIGGER -> commits raw ms s ->
  let s' := exec (checkIrSensor raw ms) s in
  currentMode s' = TRIGGER /\
  (raw = LOW ->
     motorActiveForTrigger s' = true /\ inRunOutPhase s' = false) /\
  (raw <> LOW ->
     motorActiveForTrigger s' = motorActiveForTrigger s /\
     (motorActiveForTrigger s = true ->
        inRunOutPhase s' = true /\ runOutStartTime s' = ms) /\
     (motorActiveForTrigger s = false ->
        inRunOutPhase s' = inRunOutPhase s /\
        runOutStartTime s' = runOutStartTime s)).
Proof.
  destruct s as [m lst ss ma ro rs st fl lc bs bb lt a1 a2 a3].
  unfold commits; cbn. intros -> (-> & Hs & Hd).
  apply Z.ltb_lt in Hd. apply Z.eqb_neq in Hs.
  destruct ma, bb; mrun; rewrite Z.eqb_refl, Hd, Hs; split_ifs;
    rewrite ?Z.eqb_eq, ?Z.eqb_neq in *; unfold LOW in *;
    repeat split; intros; auto; congruence.
Qed.

Lemma trigger_edge_substate_witness :
  let s := set_lastFlickerIrState LOW (set_currentMode TRIGGER initState) in
  currentMode s = TRIGGER /\ commits LOW 100 s /\
  motorActiveForTrigger (exec (checkIrSensor LOW 100) s) = true.
Proof.
  intros s.
  assert (Hm : currentMode s = TRIGGER) by reflexivity.
  assert (Hc : commits LOW 100 s).
  { unfold commits. split; [reflexivity|]. split; [discriminate|reflexivity]. }
  split; [exact Hm|]. split; [exact Hc|].
  destruct (trigger_edge_substate LOW 100 s Hm Hc) as (_ & Hlow & _).
  apply (Hlow eq_refl).
Defined.

(** ** Elapsed time across the 32-bit wrap-around *)

Lemma sub32_add (t d : Z) :
  0 <= t < ULONG_MOD -> 0 <= d < ULONG_MOD ->
  sub32 ((t + d) mod ULONG_MOD) t = d.
Proof.
  intros Ht Hd. unfold sub32.
  rewrite Zminus_mod_idemp_l. replace (t + d - t) with d by ring.
  apply Z.mod_small. exact Hd.
Qed.

(** X12. A reading that differs from the debounced level and has been
    seen unchanged since [lastStateChangeTime] is accepted at the moment
    [lastStateChangeTime + d] (mod 2^32) exactly when [d > 50], also when
    the millisecond counter wraps around in between. *)
Theorem debounce_across_wrap (raw d : Z) (s : State) :
  raw = lastFlickerIrState s -> raw <> lastStableIrState s ->
  0 <= lastStateChangeTime s < ULONG_MOD -> 0 <= d < ULONG_MOD ->
  lastStableIrState
    (exec (checkIrSensor raw ((lastStateChangeTime s + d) mod ULONG_MOD)) s) =
  (if debounceDelay <? d then raw else lastStableIrState s).
Proof.
  intros Hf Hs Ht Hd.
  destruct (Z.ltb_spec debounceDelay d) as [Hlt|Hge].
  - apply checkIrSensor_commit. unfold commits.
    rewrite sub32_add by assumption. auto.
  - apply checkIrSensor_no_commit_stable. unfold commits.
    rewrite sub32_add by assumption. lia.
Qed.

Lemma debounce_across_wrap_witness :
  let s := set_lastStateChangeTime (ULONG_MOD - 20)
             (set_lastFlickerIrState LOW initState) in
  lastStableIrState (exec (checkIrSensor LOW 40) s) = LOW.
Proof.
  intros s.
  pose proof (debounce_across_wrap LOW 60 s eq_refl ltac:(discriminate)
                ltac:(vm_compute; split; congruence)
                ltac:(vm_compute; split; congruence)) as H.
  exact H.
Defined.

(** X13. In CONTINUOUS mode the step line flips in the iteration whose
    [micros()] reading is [lastStepTime + d] (mod 2^32) exactly when
    [d >= 500], also when the microsecond counter wraps around in between. *)
Theorem step_across_wrap (ms d : Z) (s : State) :
  currentMode s = CONTINUOUS ->
  0 <= lastStepTime s < ULONG_MOD -> 0 <= d < ULONG_MOD ->
  stepState (exec (handleStepper ms ((lastStepTime s + d) mod ULONG_MOD)) s) =
  (if stepInterval <=? d then negb (stepState s) else stepState s).
Proof.
  intros Hm Ht Hd.
  pose proof (sub32_add _ _ Ht Hd) as Hsub.
  remember ((lastStepTime s + d) mod ULONG_MOD) as u eqn:Hu. clear Hu.
  destruct s as [m lst ss ma ro rs st fl lc bs bb lt a1 a2 a3].
  cbn in Hm, Hsub. subst m.
  mrun. split_ifs; rewrite ?Hsub in *; congruence.
Qed.

Lemma step_across_wrap_witness :
  let s := set_lastStepTime (ULONG_MOD - 100)
             (set_currentMode CONTINUOUS initState) in
  stepState (exec (handleStepper 0 400) s) = true.
Proof.
  intros s.
  pose proof (step_across_wrap 0 500 s eq_refl
                ltac:(vm_compute; split; congruence)
                ltac:(vm_compute; split; congruence)) as H.
  exact H.
Defined.

(** ** The decimal text of [String(unsigned long)] *)

(** The value of a decimal digit string, read left to right from [v]. *)
Fixpoint decimal_value_from (v : Z) (s : string) : Z :=
  match s with
  | EmptyString => v
  | String c r => decimal_value_from (v * 10 + (Z.of_nat (nat_of_ascii c) - 48)) r
  end.

Definition decimal_value (s : string) : Z := decimal_value_from 0 s.

Fixpoint all_decimal_digits (s : string) : bool :=
  match s with
  | EmptyString => true
  | String c r =>
      (48 <=? nat_of_ascii c)%nat && (nat_of_ascii c <=? 57)%nat &&
      all_decimal_digits r
  end.

Lemma digit_char (d : Z) :
  0 <= d < 10 ->
  Z.of_nat (nat_of_ascii (ascii_of_nat (48 + Z.to_nat d))) - 48 = d /\
  ((48 <=? nat_of_ascii (ascii_of_nat (48 + Z.to_nat d)))%nat &&
   (nat_of_ascii (ascii_of_nat (48 + Z.to_nat d)) <=? 57)%nat) = true.
Proof.
  intros Hd.
  assert (d = 0 \/ d = 1 \/ d = 2 \/ d = 3 \/ d = 4 \/ d = 5 \/ d = 6 \/
          d = 7 \/ d = 8 \/ d = 9) as Hc by lia.
  repeat destruct Hc as [-> | Hc]; try subst d; split; reflexivity.
Qed.

Lemma dec_digits_S (f : nat) (n : Z) (acc : string) :
  dec_digits (S f) n acc =
  if n <? 10 then String (ascii_of_nat (48 + Z.to_nat (n mod 10))) acc
  else dec_digits f (n / 10) (String (ascii_of_nat (48 + Z.to_nat (n mod 10))) acc).
Proof. reflexivity. Qed.

Lemma dec_digits_value (f : nat) (n : Z) (acc : string) (v : Z) :
  0 <= n < 10 ^ Z.of_nat (S f) ->
  exists k, 0 <= k /\
    decimal_value_from v (dec_digits (S f) n acc) =
    decimal_value_from (v * 10 ^ k + n) acc.
Proof.
  revert n acc v.
  induction f as [|f IH]; intros n acc v Hn;
    rewrite dec_digits_S; destruct (Z.ltb_spec n 10) as [Hlt|Hge].
  - exists 1. split; [lia|]. cbn [decimal_value_from].
    rewrite (proj1 (digit_char _ (Z.mod_pos_bound n 10 ltac:(lia)))).
    rewrite Z.mod_small by lia. f_equal; lia.
  - exfalso. cbn in Hn. lia.
  - exists 1. split; [lia|]. cbn [decimal_value_from].
    rewrite (proj1 (digit_char _ (Z.mod_pos_bound n 10 ltac:(lia)))).
    rewrite Z.mod_small by lia. f_equal; lia.
  - assert (Hq : 0 <= n / 10 < 10 ^ Z.of_nat (S f)).
    { split; [apply Z.div_pos; lia|].
      apply Z.div_lt_upper_bound; [lia|].
      rewrite <- Z.pow_succ_r by lia.
      replace (Z.succ (Z.of_nat (S f))) with (Z.of_nat (S (S f))) by lia.
      lia. }
    destruct (IH (n / 10)
                (String (ascii_of_nat (48 + Z.to_nat (n mod 10))) acc) v Hq)
      as (k & Hk & Heq).
    exists (k + 1). split; [lia|]. rewrite Heq. cbn [decimal_value_from].
    rewrite (proj1 (digit_char _ (Z.mod_pos_bound n 10 ltac:(lia)))).
    f_equal. rewrite Z.pow_add_r by lia.
    pose proof (Z.div_mod n 10 ltac:(lia)). lia.
Qed.

Lemma dec_digits_digits (f : nat) (n : Z) (acc : string) :
  0 <= n -> all_decimal_digits (dec_digits f n acc) = all_decimal_digits acc.
Proof.
  revert n acc. induction f as [|f IH]; intros n acc Hn; [reflexivity|].
  cbn [dec_digits].
  assert (Hc : all_decimal_digits
                 (String (ascii_of_nat (48 + Z.to_nat (n mod 10))) acc) =
               all_decimal_digits acc).
  { cbn [all_decimal_digits].
    rewrite (proj2 (digit_char _ (Z.mod_pos_bound n 10 ltac:(lia)))).
    reflexivity. }
  destruct (n <? 10); [exact Hc|].
  rewrite IH; [exact Hc|]. apply Z.div_pos; lia.
Qed.

Lemma dec_digits_nonempty (f : nat) (n : Z) (acc : string) :
  dec_digits (S f) n acc <> EmptyString.
Proof.
  assert (Hg : forall g m a, a <> EmptyString -> dec_digits g m a <> EmptyString).
  { induction g as [|g IH]; intros m a Ha; [exact Ha|].
    cbn [dec_digits]. destruct (m <? 10); [discriminate|].
    apply IH. discriminate. }
  cbn [dec_digits]. destruct (n <? 10); [discriminate|].
  apply Hg. discriminate.
Qed.

(** X14. For every [unsigned long] value [n] (0 <= n < 2^32) the text
    printed by [String(n)], as in the "L:" length line, is a nonempty
    string of decimal digits whose decimal value is [n]. *)
Theorem String_of_ulong_round_trip (n : Z) :
  0 <= n < ULONG_MOD ->
  String_of_ulong n <> EmptyString /\
  all_decimal_digits (String_of_ulong n) = true /\
  decimal_value (String_of_ulong n) = n.
Proof.
  intros Hn. unfold String_of_ulong, decimal_value.
  split; [apply dec_digits_nonempty|]. split.
  - rewrite dec_digits_digits by lia. reflexivity.
  - destruct (dec_digits_value 10 n "" 0) as (k & _ & Heq).
    + unfold ULONG_MOD in Hn. cbn. lia.
    + rewrite Heq. cbn. lia.
Qed.

Lemma String_of_ulong_round_trip_witness :
  decimal_value (String_of_ulong (ULONG_MOD - 1)) = ULONG_MOD - 1.
Proof.
  destruct (String_of_ulong_round_trip (ULONG_MOD - 1)
              ltac:(vm_compute; split; congruence)) as (_ & _ & H).
  exact H.
Defined.

Lemma reachable_runOut_implies_motor_witness :
  inRunOutPhase (fst (run_trace initState (firstn 5 session))) = true /\
  motorActiveForTrigger (fst (run_trace initState (firstn 5 session))) = true.
Proof.
  split; [vm_compute; reflexivity|].
  exact (reachable_runOut_implies_motor (firstn 5 session) eq_refl).
Defined.

Lemma reachable_idle_flags_clear_witness :
  let inps := session ++ [mkInput 9100 9100000 HIGH 9100 (Some "X"%char)] in
  currentMode (fst (run_trace initState inps)) = IDLE /\
  motorActiveForTrigger (fst (run_trace initState inps)) = false.
Proof.
  intros inps. split; [vm_compute; reflexivity|].
  exact (proj1 (reachable_idle_flags_clear inps eq_refl)).
Defined.

(** ** Runs without a 'C' command *)

Definition no_C_command (inps : list LoopInput) : Prop :=
  Forall (fun i => serialByte i <> Some "C"%char) inps.

Definition runOut_in_TRIGGER (s : State) : Prop :=
  inRunOutPhase s = true -> currentMode s = TRIGGER.

Lemma handleStepper_runOut_in_TRIGGER (ms us : Z) (s : State) :
  runOut_in_TRIGGER s -> runOut_in_TRIGGER (exec (handleStepper ms us) s).
Proof.
  destruct s as [m lst ss ma ro rs st fl lc bs bb lt a1 a2 a3].
  unfold runOut_in_TRIGGER; cbn. intros H.
  destruct m, ma, ro; mrun; split_ifs; inv_crunch.
Qed.

Lemma checkIrSensor_runOut_in_TRIGGER (raw ms : Z) (s : State) :
  runOut_in_TRIGGER s -> runOut_in_TRIGGER (exec (checkIrSensor raw ms) s).
Proof.
  destruct s as [m lst ss ma ro rs st fl lc bs bb lt a1 a2 a3].
  unfold runOut_in_TRIGGER; cbn. intros H.
  destruct m, ma, ro, bb; mrun; split_ifs; inv_crunch.
Qed.

Lemma checkSerialCommands_runOut_in_TRIGGER (c : option ascii) (s : State) :
  c <> Some "C"%char ->
  runOut_in_TRIGGER s -> runOut_in_TRIGGER (exec (checkSerialCommands c) s).
Proof.
  destruct s as [m lst ss ma ro rs st fl lc bs bb lt a1 a2 a3].
  unfold runOut_in_TRIGGER; cbn. intros Hc H.
  destruct c as [a|]; [|mrun; exact H].
  destruct m, ro; mrun; split_ifs;
    repeat match goal with
           | E : Ascii.eqb _ _ = true |- _ => apply Ascii.eqb_eq in E; subst
           end;
    inv_crunch.
Qed.

Lemma run_no_C_runOut_in_TRIGGER (inps : list LoopInput) :
  no_C_command inps -> runOut_in_TRIGGER (fst (run_trace initState inps)).
Proof.
  assert (H0 : runOut_in_TRIGGER initState) by (intros H; discriminate H).
  revert H0. generalize initState.
  induction inps as [|inp inps IH]; intros s Hs Hn; [exact Hs|].
  inversion Hn as [|x l Hx Hr]; subst.
  rewrite run_trace_fst_cons. apply IH; [|exact Hr].
  rewrite exec_loop.
  apply checkSerialCommands_runOut_in_TRIGGER; [exact Hx|].
  apply checkIrSensor_runOut_in_TRIGGER, handleStepper_runOut_in_TRIGGER, Hs.
Qed.

(** C4 (code diverges; the spec holds where the code has no slip): on
    every run from power-up in which no 'C' command arrives, whatever the
    mode, an evaluation of the stepper handler during an active run-out at
    which [millis() - runOutStartTime >= 7000] (modulo 2^32) ends the
    run-out and clears [motorActiveForTrigger].  Only the 'C' branch, which
    omits the trigger-state reset of 'T' and 'X', lets a run-out outlive
    TRIGGER mode (see [runOut_not_ended_outside_TRIGGER_cex]). *)
Theorem runOut_expiry_without_C_command (inps : list LoopInput) (ms us : Z) :
  no_C_command inps ->
  let s := fst (run_trace initState inps) in
  inRunOutPhase s = true ->
  runOutDuration <= sub32 ms (runOutStartTime s) ->
  inRunOutPhase (exec (handleStepper ms us) s) = false /\
  motorActiveForTrigger (exec (handleStepper ms us) s) = false.
Proof.
  intros Hn s Hro Hle.
  pose proof (run_no_C_runOut_in_TRIGGER inps Hn Hro) as Hm.
  exact (proj1 (runOut_expiry_in_TRIGGER ms us s) Hm Hro Hle).
Qed.

Lemma runOut_expiry_without_C_command_witness :
  no_C_command (firstn 5 session) /\
  inRunOutPhase (fst (run_trace initState (firstn 5 session))) = true /\
  inRunOutPhase (exec (handleStepper 7400 7400000)
                   (fst (run_trace initState (firstn 5 session)))) = false.
Proof.
  assert (Hn : no_C_command (firstn 5 session)).
  { unfold no_C_command. vm_compute.
    repeat constructor; intros E; discriminate E. }
  assert (Hro : inRunOutPhase (fst (run_trace initState (firstn 5 session))) = true)
    by (vm_compute; reflexivity).
  split; [exact Hn|]. split; [exact Hro|].
  assert (Hle : runOutDuration <= sub32 7400
            (runOutStartTime (fst (run_trace initState (firstn 5 session)))))
    by (vm_compute; discriminate).
  exact (proj1 (runOut_expiry_without_C_command (firstn 5 session) 7400 7400000
                  Hn Hro Hle)).
Defined.
